(** * DenoTest: the in-memory blog API (blog-api.js) and the demo entry
      point (main.js), embedded as request handlers over an explicit store.

    Each [Deno.serve] callback becomes a function from the request (and
    from what the platform would answer to [crypto.randomUUID()] and
    [new Date()] during that request) to the response, threading the
    [posts] array.  A request is handled atomically. *)

From Stdlib Require Import Ascii Floats.
From stdpp Require Import gmap strings list.

Set Warnings "-register-all".

(** ** JavaScript values, as far as JSON can produce them *)
Module Js.

(** What [JSON.parse] can build, plus [undefined], the result of reading a
    property that is not there.  Numbers are IEEE doubles. *)
Inductive value : Type :=
| VUndefined
| VNull
| VBool (b : bool)
| VNumber (n : float)
| VString (s : string)
| VArray (l : list value)
| VObject (m : gmap string value).

(** ToBoolean: [undefined], [null], [false], [+0], [-0], [NaN] and the
    empty string are falsy; everything else (every object and array too)
    is truthy. *)
Definition truthy (v : value) : bool :=
  match v with
  | VUndefined => false
  | VNull => false
  | VBool b => b
  | VNumber n => negb (PrimFloat.eqb n 0%float || PrimFloat.is_nan n)
  | VString s => negb (bool_decide (s = ""))
  | VArray _ => true
  | VObject _ => true
  end.

(** [v.k] for the keys the handlers read ([title], [content], [author]):
    an own property of an object, [undefined] on anything else.  The
    handlers never read a property of [null] or [undefined]. *)
Definition get_prop (v : value) (k : string) : value :=
  match v with
  | VObject m => default VUndefined (m !! k)
  | _ => VUndefined
  end.

(** A field that is absent, or present as the empty string. *)
Definition missing_or_empty (v : value) : Prop :=
  v = VUndefined ∨ v = VString "".

(** [a || b] *)
Definition js_or (a b : value) : value := if truthy a then a else b.

(** The outcome of [req.json()]: the parsed value, or an exception. *)
Inductive json_result : Type :=
| Parsed (v : value)
| Throws.

(** [s.split(sep)] for a one-character separator. *)
Fixpoint split (sep : ascii) (s : string) : list string :=
  match s with
  | EmptyString => [EmptyString]
  | String c s' =>
      if Ascii.eqb c sep then EmptyString :: split sep s'
      else match split sep s' with
           | x :: xs => String c x :: xs
           | [] => [String c EmptyString]
           end
  end.

(** [arr.pop()] read as a value: the last element ([split] never returns
    an empty array). *)
Definition pop (l : list string) : string := List.last l EmptyString.

End Js.

(** ** Requests and responses *)
Module Http.
Import Js.

Record request : Type := mkRequest {
  method : string;          (* req.method *)
  path : string;            (* new URL(req.url).pathname *)
  json_body : json_result   (* what req.json() does *)
}.

(** A blog post.  [title], [content] and [author] hold whatever truthy
    value the request body supplied; [updatedAt] is absent until the
    first update. *)
Record post : Type := mkPost {
  id : string;
  title : value;
  content : value;
  author : value;
  createdAt : string;
  updatedAt : option string
}.

(** The object handed to [JSON.stringify] for a response body. *)
Inductive payload : Type :=
| PPosts (posts : list post)              (* { posts } *)
| PPost (p : post)                        (* { post } *)
| PError (error : string)                 (* { error } *)
| PDeleted (message : string) (p : post)  (* { message, post } *)
| PData (message timestamp environment : string).

Inductive body : Type :=
| NoBody                    (* new Response(null, ...) *)
| JsonBody (p : payload)    (* JSON.stringify(...) *)
| TextBody (s : string)     (* a plain string *)
| HomePage.                 (* the HTML template literal of blog-api.js *)

Record response : Type := mkResponse {
  status : nat;
  resp_headers : list (string * string);
  resp_body : body
}.

(** [new Response(body, { headers })]: the status defaults to 200. *)
Definition ok (h : list (string * string)) (b : body) : response :=
  mkResponse 200 h b.

(** [new Response(text, { status })] with no headers given: for a string
    body the platform sets content-type to text/plain;charset=UTF-8. *)
Definition text (st : nat) (s : string) : response :=
  mkResponse st [("content-type", "text/plain;charset=UTF-8")] (TextBody s).

(** Reading a header by the name it was written with. *)
Definition header (name : string) (r : response) : option string :=
  snd <$> List.find (λ kv, bool_decide (kv.1 = name)) (resp_headers r).

End Http.

(** ** blog-api.js *)
Module BlogApi.
Import Js Http.

(** What the platform supplies while one request is handled. *)
Record env : Type := mkEnv {
  randomUUID : string;   (* crypto.randomUUID() *)
  now : string           (* new Date().toISOString() *)
}.

Definition posts : list post :=
  [ mkPost "1" (VString "Introduction to Deno Deploy")
      (VString "Deno Deploy is a distributed hosting service for Deno applications...")
      (VString "Deno User") "2025-05-01T10:00:00Z" None;
    mkPost "2" (VString "Working with Deno KV")
      (VString "Deno KV provides a simple key-value storage solution...")
      (VString "Deno Fan") "2025-05-02T14:30:00Z" None ].

Definition generateId (e : env) : string := randomUUID e.

Definition jsonHeaders : list (string * string) :=
  [("content-type", "application/json")].

Definition parseJsonBody (r : json_result) : value :=
  match r with
  | Parsed v => v
  | Throws => VNull
  end.

(** [{ ...jsonHeaders, "Access-Control-Allow-Origin": "*", ... }] *)
Definition headers : list (string * string) :=
  jsonHeaders ++
  [("Access-Control-Allow-Origin", "*");
   ("Access-Control-Allow-Methods", "GET, POST, PUT, DELETE, OPTIONS");
   ("Access-Control-Allow-Headers", "Content-Type")].

(** [\w] *)
Definition is_word_char (c : ascii) : bool :=
  let n := nat_of_ascii c in
  (48 <=? n) && (n <=? 57) || (65 <=? n) && (n <=? 90)
  || (97 <=? n) && (n <=? 122) || (n =? 95).

(** [[\w-]] *)
Definition is_id_char (c : ascii) : bool :=
  is_word_char c || bool_decide (c = "-"%char).

Definition string_forallb (f : ascii → bool) (s : string) : bool :=
  forallb f (String.list_ascii_of_string s).

(** [strip_prefix p s]: the rest of [s] after the prefix [p], if any. *)
Fixpoint strip_prefix (p s : string) : option string :=
  match p, s with
  | EmptyString, _ => Some s
  | String a p', String b s' =>
      if Ascii.eqb a b then strip_prefix p' s' else None
  | String _ _, EmptyString => None
  end.

(** [[\w-]+] against a whole string. *)
Definition is_id (s : string) : bool :=
  negb (bool_decide (s = "")) && string_forallb is_id_char s.

(** [path.match(/^\/api\/posts\/[\w-]+$/)], read as a condition. *)
Definition match_post_path (p : string) : bool :=
  match strip_prefix "/api/posts/" p with
  | Some rest => is_id rest
  | None => false
  end.

(** [path.split("/").pop()] *)
Definition path_id (p : string) : string := pop (split "/"%char p).

Definition json (st : nat) (p : payload) : response :=
  mkResponse st headers (JsonBody p).

(** The callback of [Deno.serve]: the response and the [posts] array
    afterwards. *)
Definition handle (e : env) (req : request) (posts : list post)
  : response * list post :=
  if bool_decide (method req = "OPTIONS") then
    (ok headers NoBody, posts)
  else if bool_decide (path req = "/api/posts") && bool_decide (method req = "GET") then
    (json 200 (PPosts posts), posts)
  else if match_post_path (path req) && bool_decide (method req = "GET") then
    let i := path_id (path req) in
    match list_find (λ p, id p = i) posts with
    | None => (json 404 (PError "Post not found"), posts)
    | Some (_, p) => (json 200 (PPost p), posts)
    end
  else if bool_decide (path req = "/api/posts") && bool_decide (method req = "POST") then
    let body := parseJsonBody (json_body req) in
    if negb (truthy body) || negb (truthy (get_prop body "title"))
       || negb (truthy (get_prop body "content")) then
      (json 400 (PError "Title and content are required"), posts)
    else
      let newPost :=
        {| id := generateId e;
           title := get_prop body "title";
           content := get_prop body "content";
           author := js_or (get_prop body "author") (VString "Anonymous");
           createdAt := now e;
           updatedAt := None |} in
      (json 201 (PPost newPost), posts ++ [newPost])
  else if match_post_path (path req) && bool_decide (method req = "PUT") then
    let i := path_id (path req) in
    match list_find (λ p, id p = i) posts with
    | None => (json 404 (PError "Post not found"), posts)
    | Some (postIndex, old) =>
        let body := parseJsonBody (json_body req) in
        if negb (truthy body) then
          (json 400 (PError "Invalid request body"), posts)
        else
          let updatedPost :=
            {| id := id old;
               title := js_or (get_prop body "title") (title old);
               content := js_or (get_prop body "content") (content old);
               author := js_or (get_prop body "author") (author old);
               createdAt := createdAt old;
               updatedAt := Some (now e) |} in
          (json 200 (PPost updatedPost), <[postIndex := updatedPost]> posts)
    end
  else if match_post_path (path req) && bool_decide (method req = "DELETE") then
    let i := path_id (path req) in
    match list_find (λ p, id p = i) posts with
    | None => (json 404 (PError "Post not found"), posts)
    | Some (postIndex, deletedPost) =>
        (json 200 (PDeleted "Post deleted successfully" deletedPost),
         delete postIndex posts)
    end
  else if bool_decide (path req = "/") then
    (ok [("content-type", "text/html")] HomePage, posts)
  else
    (json 404 (PError "Not Found"), posts).

(** *** Sequences of requests *)

(** One handled request: what the platform supplied, and the request. *)
Definition event : Type := env * request.

Definition step (s : list post) (ev : event) : list post :=
  (handle ev.1 ev.2 s).2.

(** The store after the requests of [t], in order, starting from [s]. *)
Definition run (t : list event) (s : list post) : list post :=
  foldl step s t.

(** The responses to the requests of [t], in order. *)
Fixpoint replies (t : list event) (s : list post) : list response :=
  match t with
  | [] => []
  | ev :: t' => (handle ev.1 ev.2 s).1 :: replies t' (step s ev)
  end.

(** The post of a 201 response. *)
Definition created (r : response) : option post :=
  match status r, resp_body r with
  | 201, JsonBody (PPost p) => Some p
  | _, _ => None
  end.

(** A response that reports a removed post. *)
Definition deleted (r : response) : bool :=
  match resp_body r with
  | JsonBody (PDeleted _ _) => true
  | _ => false
  end.

Definition ids (s : list post) : list string := id <$> s.

(** *** What one request does to the store *)

(** The four ways a request can leave the store: untouched, one post
    appended (exactly when the reply is a 201), one post replaced in
    place by a post of the same id (a PUT), one post removed (exactly
    when the reply reports a deletion). *)
Inductive effect (e : env) (req : request) (s : list post)
  : response → list post → Prop :=
| eff_none r :
    created r = None → deleted r = false → effect e req s r s
| eff_append p :
    id p = randomUUID e → createdAt p = now e →
    effect e req s (json 201 (PPost p)) (s ++ [p])
| eff_replace r i old p :
    method req = "PUT" →
    s !! i = Some old → id p = id old →
    created r = None → deleted r = false →
    effect e req s r (<[i := p]> s)
| eff_remove r i p :
    s !! i = Some p → created r = None → deleted r = true →
    effect e req s r (delete i s).

(** *** What is assumed of [crypto.randomUUID()] *)

Definition is_hex_digit (c : ascii) : bool :=
  let n := nat_of_ascii c in
  (48 <=? n) && (n <=? 57) || (97 <=? n) && (n <=? 102).

(** The characters of [s] from position [pos] on follow the layout
    xxxxxxxx-xxxx-xxxx-xxxx-xxxxxxxxxxxx (36 characters, lower-case
    hexadecimal digits, hyphens at 8, 13, 18 and 23). *)
Fixpoint uuid_from (pos : nat) (s : string) : bool :=
  match s with
  | EmptyString => pos =? 36
  | String c s' =>
      (if bool_decide (pos ∈ [8; 13; 18; 23]) then Ascii.eqb c "-"%char
       else is_hex_digit c)
      && uuid_from (S pos) s'
  end.

Definition is_uuid (s : string) : bool := uuid_from 0 s.

(** What [generateId] returned while the request was handled: it is
    called exactly when a post is created. *)
Definition draw (e : env) (r : response) : list string :=
  match created r with
  | Some _ => [generateId e]
  | None => []
  end.

(** The identifiers generated over the requests of [t], started on [s]. *)
Fixpoint draws (t : list event) (s : list post) : list string :=
  match t with
  | [] => []
  | ev :: t' => draw ev.1 (handle ev.1 ev.2 s).1 ++ draws t' (step s ev)
  end.

(** From the seed posts on, the generator returned well-formed UUIDs and
    never the same one twice over the requests of [t]. *)
Definition rng_fresh (t : list event) : Prop :=
  NoDup (draws t posts) ∧ Forall (λ u, is_uuid u = true) (draws t posts).

(** Every post has an identifier of its own, and one that a
    [/api/posts/:id] path can carry. *)
Definition store_ok (s : list post) : Prop :=
  NoDup (ids s) ∧ Forall (λ i, is_id i = true) (ids s).

End BlogApi.

(** ** main.js *)
Module Main.
Import Js Http.

Record env : Type := mkEnv {
  localeNow : string;              (* new Date().toLocaleString() *)
  jsonNow : string;                (* new Date(), as JSON.stringify writes it *)
  deploymentId : option string     (* Deno.env.get("DENO_DEPLOYMENT_ID") *)
}.

(** [Deno.env.get(...) ? "production" : "development"] *)
Definition environment (e : env) : string :=
  match deploymentId e with
  | Some s => if bool_decide (s = "") then "development" else "production"
  | None => "development"
  end.

Definition handle (e : env) (req : request) : response :=
  if bool_decide (path req = "/") then
    ok [("content-type", "text/plain")] (TextBody "Welcome to my Deno Deploy API!")
  else if bool_decide (path req = "/time") then
    ok [("content-type", "text/plain")]
       (TextBody ("Current server time: " +:+ localeNow e))
  else if bool_decide (path req = "/data") then
    ok [("content-type", "application/json")]
       (JsonBody (PData "This is JSON data from Deno Deploy" (jsonNow e) (environment e)))
  else
    text 404 "Not Found".

End Main.

(** ** Concrete requests, used to run the handlers *)
Module Sample.
Import Js Http.

Definition uuid1 : string := "123e4567-e89b-42d3-a456-426614174000".
Definition uuid2 : string := "9b2e1f60-4c1d-4e7a-8f3b-0a1b2c3d4e5f".

Definition env1 : BlogApi.env := BlogApi.mkEnv uuid1 "2026-01-01T00:00:00.000Z".
Definition env2 : BlogApi.env := BlogApi.mkEnv uuid2 "2026-01-02T00:00:00.000Z".

(** [{"title":"Hi","content":"World"}] *)
Definition hello : value :=
  VObject (<["title" := VString "Hi"]> {["content" := VString "World"]}).

(** [{"title":"Hi","content":"World","author":""}] *)
Definition hello_no_author : value :=
  VObject (<["title" := VString "Hi"]>
           (<["content" := VString "World"]> {["author" := VString ""]})).

(** [{"title":"","content":"World"}] *)
Definition empty_title : value :=
  VObject (<["title" := VString ""]> {["content" := VString "World"]}).

Definition create_hello : request := mkRequest "POST" "/api/posts" (Parsed hello).

(** One successful create, from the seed store. *)
Definition trace1 : list BlogApi.event := [(env1, create_hello)].

Definition main_env : Main.env :=
  Main.mkEnv "1/1/2026, 12:00:00 AM" "2026-01-01T00:00:00.000Z" None.

End Sample.

(** * Properties *)
Import Js Http.

(** ** The handlers on concrete requests *)
Section Running.
Import BlogApi.

Example truthy_values :
  truthy (VObject ∅) = true ∧ truthy (VArray []) = true
  ∧ truthy (VString "") = false ∧ truthy (VNumber (-0)%float) = false
  ∧ truthy (VNumber 1%float) = true ∧ truthy VNull = false.
Proof. by repeat split. Qed.

Example split_path : split "/"%char "/api/posts/abc-1" = [""; "api"; "posts"; "abc-1"].
Proof. reflexivity. Qed.

Example post_paths :
  match_post_path "/api/posts/a_b-9" = true
  ∧ match_post_path "/api/posts/" = false
  ∧ match_post_path "/api/posts" = false
  ∧ match_post_path "/api/posts/a/b" = false
  ∧ match_post_path "/api/posts/a.b" = false
  ∧ match_post_path "/x/api/posts/a" = false.
Proof. by repeat split. Qed.

Example uuid_shapes :
  is_uuid Sample.uuid1 = true ∧ is_uuid "1" = false
  ∧ is_uuid "123e4567e89b42d3a456426614174000" = false.
Proof. by repeat split. Qed.

Example get_seed_post :
  (handle Sample.env1 (mkRequest "GET" "/api/posts/2" Throws) posts).1
  = json 200 (PPost (mkPost "2" (VString "Working with Deno KV")
      (VString "Deno KV provides a simple key-value storage solution...")
      (VString "Deno Fan") "2025-05-02T14:30:00Z" None)).
Proof. reflexivity. Qed.

Example create_hello_post :
  handle Sample.env1 Sample.create_hello posts
  = (json 201 (PPost (mkPost Sample.uuid1 (VString "Hi") (VString "World")
                        (VString "Anonymous") "2026-01-01T00:00:00.000Z" None)),
     posts ++ [mkPost Sample.uuid1 (VString "Hi") (VString "World")
                 (VString "Anonymous") "2026-01-01T00:00:00.000Z" None]).
Proof. reflexivity. Qed.

Example unknown_route :
  handle Sample.env1 (mkRequest "PATCH" "/api/posts/1" Throws) posts
  = (json 404 (PError "Not Found"), posts).
Proof. reflexivity. Qed.

Example main_not_found :
  Main.handle Sample.main_env (mkRequest "GET" "/api/posts" Throws)
  = mkResponse 404 [("content-type", "text/plain;charset=UTF-8")]
      (TextBody "Not Found").
Proof. reflexivity. Qed.

End Running.

(** ** Paths and identifiers *)
Section Paths.
Import BlogApi.

Lemma strip_prefix_Some p : ∀ s r, strip_prefix p s = Some r → s = p +:+ r.
Proof.
  induction p as [|a p IH]; intros s r; simpl.
  - intros [= ->]. done.
  - destruct s as [|b s]; [done|].
    destruct (Ascii.eqb_spec a b) as [->|]; [|done].
    intros H. by rewrite (IH _ _ H).
Qed.

Lemma strip_prefix_app p r : strip_prefix p (p +:+ r) = Some r.
Proof. induction p as [|a p IH]; simpl; [by destruct r|]. by rewrite Ascii.eqb_refl. Qed.

Lemma split_no_sep sep s :
  string_forallb (λ c, negb (Ascii.eqb c sep)) s = true → split sep s = [s].
Proof.
  unfold string_forallb. induction s as [|c s IH]; simpl; [done|].
  intros [Hc Hs]%andb_prop. apply negb_true_iff in Hc. rewrite Hc.
  by rewrite (IH Hs).
Qed.

Lemma is_id_char_not_slash c : is_id_char c = true → negb (Ascii.eqb c "/"%char) = true.
Proof.
  destruct (Ascii.eqb_spec c "/"%char) as [->|]; [|done].
  vm_compute. discriminate.
Qed.

Lemma string_forallb_impl (f g : ascii → bool) s :
  (∀ c, f c = true → g c = true) →
  string_forallb f s = true → string_forallb g s = true.
Proof.
  unfold string_forallb. intros Hfg. rewrite !forallb_forall. auto.
Qed.

Lemma path_id_post_path r :
  is_id r = true → path_id ("/api/posts/" +:+ r) = r.
Proof.
  intros [_ Hr]%andb_prop.
  unfold path_id. cbv [String.append]. simpl.
  rewrite (split_no_sep "/"%char r); [done|].
  revert Hr. apply string_forallb_impl, is_id_char_not_slash.
Qed.

End Paths.

Section PostPaths.
Import BlogApi.

Lemma match_post_path_inv p :
  match_post_path p = true →
  ∃ r, p = "/api/posts/" +:+ r ∧ is_id r = true ∧ path_id p = r.
Proof.
  unfold match_post_path.
  destruct (strip_prefix "/api/posts/" p) as [r|] eqn:Hp; [|done].
  intros Hr. exists r. apply strip_prefix_Some in Hp as ->.
  by rewrite path_id_post_path.
Qed.

Lemma match_post_path_id r :
  is_id r = true → match_post_path ("/api/posts/" +:+ r) = true.
Proof. intros Hr. unfold match_post_path. by rewrite strip_prefix_app. Qed.

Lemma match_post_path_not_list p : match_post_path p = true → p ≠ "/api/posts".
Proof. intros H ->. vm_compute in H. discriminate. Qed.

Lemma match_post_path_not_home p : match_post_path p = true → p ≠ "/".
Proof. intros H ->. vm_compute in H. discriminate. Qed.

End PostPaths.

(** Deciding the routes of a request whose method is known. *)
Ltac route :=
  unfold BlogApi.handle;
  repeat match goal with
    | H : method ?r = _ |- _ => rewrite H
    | H : path ?r = _ |- _ => rewrite H
    | H : BlogApi.match_post_path _ = true |- _ =>
        rewrite H; pose proof (match_post_path_not_list _ H);
        pose proof (match_post_path_not_home _ H); clear H
    end;
  repeat (case_bool_decide; try done); simpl; try done.

Section Routes.
Import BlogApi.

Lemma handle_options e req s :
  method req = "OPTIONS" → handle e req s = (ok headers NoBody, s).
Proof. intros Hm. by route. Qed.

Lemma handle_list e req s :
  method req = "GET" → path req = "/api/posts" →
  handle e req s = (json 200 (PPosts s), s).
Proof. intros Hm Hp. by route. Qed.

Lemma handle_get e req s :
  method req = "GET" → match_post_path (path req) = true →
  handle e req s =
    match list_find (λ p, id p = path_id (path req)) s with
    | None => (json 404 (PError "Post not found"), s)
    | Some (_, p) => (json 200 (PPost p), s)
    end.
Proof. intros Hm Hp. by route. Qed.

Lemma handle_post e req s :
  method req = "POST" → path req = "/api/posts" →
  handle e req s =
    let body := parseJsonBody (json_body req) in
    if negb (truthy body) || negb (truthy (get_prop body "title"))
       || negb (truthy (get_prop body "content")) then
      (json 400 (PError "Title and content are required"), s)
    else
      let newPost :=
        mkPost (generateId e) (get_prop body "title") (get_prop body "content")
          (js_or (get_prop body "author") (VString "Anonymous")) (now e) None in
      (json 201 (PPost newPost), s ++ [newPost]).
Proof. intros Hm Hp. by route. Qed.

Lemma handle_put e req s :
  method req = "PUT" → match_post_path (path req) = true →
  handle e req s =
    match list_find (λ p, id p = path_id (path req)) s with
    | None => (json 404 (PError "Post not found"), s)
    | Some (postIndex, old) =>
        let body := parseJsonBody (json_body req) in
        if negb (truthy body) then
          (json 400 (PError "Invalid request body"), s)
        else
          let updatedPost :=
            mkPost (id old) (js_or (get_prop body "title") (title old))
              (js_or (get_prop body "content") (content old))
              (js_or (get_prop body "author") (author old))
              (createdAt old) (Some (now e)) in
          (json 200 (PPost updatedPost), <[postIndex := updatedPost]> s)
    end.
Proof. intros Hm Hp. by route. Qed.

Lemma handle_delete e req s :
  method req = "DELETE" → match_post_path (path req) = true →
  handle e req s =
    match list_find (λ p, id p = path_id (path req)) s with
    | None => (json 404 (PError "Post not found"), s)
    | Some (postIndex, deletedPost) =>
        (json 200 (PDeleted "Post deleted successfully" deletedPost),
         delete postIndex s)
    end.
Proof. intros Hm Hp. by route. Qed.

End Routes.

(** ** What one request does to the store *)
Section Steps.
Import BlogApi.

Lemma handle_effect e req s :
  effect e req s (handle e req s).1 (handle e req s).2.
Proof.
  unfold handle.
  repeat case_match; simpl;
    try (by apply eff_none);
    try (by apply eff_append).
  - match goal with H : list_find _ _ = Some _ |- _ =>
      apply list_find_Some in H as (Hl & _ & _) end.
    match goal with H : _ && bool_decide (method req = "PUT") = true |- _ =>
      apply andb_prop in H as [_ Hm%bool_decide_eq_true] end.
    by eapply eff_replace.
  - match goal with H : list_find _ _ = Some _ |- _ =>
      apply list_find_Some in H as (Hl & _ & _) end.
    by eapply eff_remove.
Qed.

Lemma effect_ids e req s r s' :
  effect e req s r s' →
  (draw e r = [] ∧ (ids s' = ids s ∨ ∃ i, ids s' = delete i (ids s)))
  ∨ (draw e r = [randomUUID e] ∧ ids s' = ids s ++ [randomUUID e]).
Proof.
  unfold ids, draw.
  destruct 1 as [r Hc _ | p Hp _ | r i old p _ Hi Hp Hc _ | r i p Hi Hc _].
  - left. rewrite Hc. auto.
  - right. split; [done|]. by rewrite fmap_app, <- Hp.
  - left. rewrite Hc. split; [done|]. left.
    rewrite list_fmap_insert, Hp. apply list_insert_id.
    by rewrite list_lookup_fmap, Hi.
  - left. rewrite Hc. split; [done|]. right. exists i. apply list_fmap_delete.
Qed.

End Steps.

(** ** Identifiers stay unique while the generator does not repeat *)
Section Invariant.
Import BlogApi.

Lemma is_hex_digit_id_char c : is_hex_digit c = true → is_id_char c = true.
Proof.
  unfold is_id_char, is_word_char, is_hex_digit.
  generalize (nat_of_ascii c); intros n.
  rewrite !orb_true_iff, !andb_true_iff, !Nat.leb_le, Nat.eqb_eq. lia.
Qed.

Lemma uuid_from_id_chars s :
  ∀ pos, uuid_from pos s = true → string_forallb is_id_char s = true.
Proof.
  unfold string_forallb.
  induction s as [|c s IH]; intros pos; simpl; [done|].
  intros [Hc Hs]%andb_prop. apply andb_true_intro; split; [|by eapply IH].
  case_bool_decide.
  - apply Ascii.eqb_eq in Hc as ->. done.
  - by apply is_hex_digit_id_char.
Qed.

Lemma is_uuid_is_id u : is_uuid u = true → is_id u = true.
Proof.
  intros Hu. unfold is_id. rewrite (uuid_from_id_chars u 0 Hu), andb_true_r.
  apply negb_true_iff, bool_decide_eq_false. by intros ->.
Qed.

Lemma is_uuid_not_seed u : is_uuid u = true → u ∉ ids posts.
Proof.
  intros Hu Hin. unfold ids, posts in Hin. simpl in Hin.
  repeat (apply elem_of_cons in Hin as [Hin|Hin];
          [subst u; vm_compute in Hu; discriminate|]).
  by apply elem_of_nil in Hin.
Qed.

Lemma posts_ok : store_ok posts.
Proof.
  split.
  - unfold ids, posts; simpl. apply NoDup_cons; split.
    + by intros [=]%list_elem_of_singleton.
    + apply NoDup_singleton.
  - unfold ids, posts; simpl. by repeat constructor.
Qed.

Lemma store_ok_delete i s : store_ok s → store_ok (delete i s).
Proof.
  intros [Hnd Hid]. unfold store_ok, ids. rewrite list_fmap_delete. split.
  - eapply sublist_NoDup; [done|apply sublist_delete].
  - by apply Forall_delete.
Qed.

Lemma effect_store_ok e req s r s' :
  effect e req s r s' → store_ok s →
  Forall (λ u, is_uuid u = true) (draw e r) →
  (∀ u, u ∈ draw e r → u ∉ ids s) →
  store_ok s' ∧ ∀ i, i ∈ ids s' → i ∈ ids s ∨ i ∈ draw e r.
Proof.
  intros Heff [Hnd Hid] Hu Hfresh.
  destruct (effect_ids _ _ _ _ _ Heff) as [[_ [Hs'|[i Hs']]]|[Hd Hs']].
  - unfold store_ok. rewrite Hs'. auto.
  - split.
    + destruct (store_ok_delete i s) as [Hnd' Hid']; [done|].
      unfold store_ok. unfold ids in *. rewrite list_fmap_delete in *.
      by rewrite Hs'.
    + intros x Hx. left. rewrite Hs' in Hx.
      by eapply list_elem_of_delete_inv.
  - rewrite Hd in *. unfold store_ok. rewrite Hs'.
    rewrite Forall_singleton in Hu.
    split; [split|].
    + apply NoDup_app. split; [done|]. split; [|apply NoDup_singleton].
      intros x Hx ->%list_elem_of_singleton.
      by apply (Hfresh (randomUUID e)); [apply list_elem_of_singleton|].
    + apply Forall_app. split; [done|]. constructor; [|done].
      by apply is_uuid_is_id.
    + intros x [Hx|Hx]%elem_of_app; auto.
Qed.

Lemma run_store_ok t :
  ∀ s, store_ok s →
  NoDup (draws t s) → Forall (λ u, is_uuid u = true) (draws t s) →
  (∀ u, u ∈ draws t s → u ∉ ids s) →
  store_ok (run t s) ∧ ∀ i, i ∈ ids (run t s) → i ∈ ids s ∨ i ∈ draws t s.
Proof.
  induction t as [|[e req] t IH]; intros s Hs Hnd Hu Hfresh; simpl in *.
  - auto.
  - apply NoDup_app in Hnd as (_ & Hdisj & Hnd).
    apply Forall_app in Hu as [Hue Hu].
    destruct (effect_store_ok e req s _ _ (handle_effect e req s) Hs Hue)
      as [Hs1 Hin1].
    { intros u Hin. apply Hfresh, elem_of_app. by left. }
    destruct (IH (step s (e, req)) Hs1 Hnd Hu) as [Hok Hin].
    { intros u Hut Hus. apply Hin1 in Hus as [Hus|Hus].
      - eapply Hfresh; [|done]. apply elem_of_app. by right.
      - by eapply Hdisj. }
    split; [done|]. intros i Hi. rewrite elem_of_app.
    apply Hin in Hi as [Hi|Hi]; [|auto].
    apply Hin1 in Hi as [Hi|Hi]; auto.
Qed.

(** From the two seed posts, under a generator that does not repeat,
    every store is well formed, and its identifiers are seed identifiers
    or generated ones. *)
Lemma reachable_store_ok t :
  rng_fresh t →
  store_ok (run t posts) ∧
  ∀ i, i ∈ ids (run t posts) → i ∈ ids posts ∨ i ∈ draws t posts.
Proof.
  intros [Hnd Hall]. apply run_store_ok; [apply posts_ok|done..|].
  intros u Hu. apply is_uuid_not_seed.
  rewrite Forall_forall in Hall. by apply Hall.
Qed.

End Invariant.

(** ** Looking a post up by its identifier *)
Section Lookup.
Import BlogApi.

Lemma find_present (s : list post) i :
  i ∈ ids s → ∃ k p, list_find (λ q, id q = i) s = Some (k, p).
Proof.
  intros (p & -> & Hp)%list_elem_of_fmap.
  destruct (list_find_elem_of (λ q, id q = id p) s p) as [[k q] Hk]; eauto.
Qed.

Lemma find_absent (s : list post) i :
  i ∉ ids s → list_find (λ q, id q = i) s = None.
Proof.
  intros Hi. apply list_find_None, Forall_forall. intros q Hq Hid.
  apply Hi. rewrite <- Hid. by apply list_elem_of_fmap_2.
Qed.

Lemma find_found (s : list post) i k p :
  list_find (λ q, id q = i) s = Some (k, p) → s !! k = Some p ∧ id p = i.
Proof. intros (? & ? & _)%list_find_Some. done. Qed.

(** With unique identifiers, looking up the id of a stored post finds
    that very post. *)
Lemma find_unique (s : list post) p :
  NoDup (ids s) → p ∈ s →
  ∃ k, s !! k = Some p ∧ list_find (λ q, id q = id p) s = Some (k, p).
Proof.
  intros Hnd Hp.
  destruct (find_present s (id p)) as (k & q & Hk).
  { by apply list_elem_of_fmap_2. }
  destruct (find_found _ _ _ _ Hk) as [Hq Hid].
  apply list_elem_of_lookup in Hp as [j Hj].
  assert (k = j) as ->.
  { eapply (NoDup_lookup (ids s)); [done| |].
    - unfold ids. by rewrite list_lookup_fmap, Hq.
    - unfold ids. by rewrite list_lookup_fmap, Hj, Hid. }
  exists j. split; [done|]. congruence.
Qed.

(** With unique identifiers, a removed post leaves no post of its id. *)
Lemma removed_id_absent (s : list post) k p :
  NoDup (ids s) → s !! k = Some p → id p ∉ ids (delete k s).
Proof.
  intros Hnd Hk. unfold ids. rewrite list_fmap_delete.
  intros [j Hj]%list_elem_of_lookup.
  assert (ids s !! k = Some (id p)) as Hk'.
  { unfold ids. by rewrite list_lookup_fmap, Hk. }
  destruct (decide (j < k)) as [Hlt|Hge].
  - rewrite list_lookup_delete_lt in Hj by done.
    pose proof (NoDup_lookup _ _ _ _ Hnd Hj Hk'). lia.
  - rewrite list_lookup_delete_ge in Hj by lia.
    pose proof (NoDup_lookup _ _ _ _ Hnd Hj Hk'). lia.
Qed.

End Lookup.

(** ** The routes of blog-api.js and main.js *)
Section Claims.
Import BlogApi.

Lemma truthy_get_prop v k : truthy (get_prop v k) = true → truthy v = true.
Proof. by destruct v. Qed.

Lemma missing_or_empty_falsy v : missing_or_empty v → truthy v = false.
Proof. by intros [-> | ->]. Qed.

(** C8: a request with method OPTIONS, whatever its path and whatever the
    store holds, is answered 200 with no body and the four CORS headers,
    and the store is left as it was. *)
Theorem options_preflight e req s :
  method req = "OPTIONS" →
  handle e req s = (mkResponse 200 headers NoBody, s)
  ∧ header "content-type" (handle e req s).1 = Some "application/json"
  ∧ header "Access-Control-Allow-Origin" (handle e req s).1 = Some "*"
  ∧ header "Access-Control-Allow-Methods" (handle e req s).1
      = Some "GET, POST, PUT, DELETE, OPTIONS"
  ∧ header "Access-Control-Allow-Headers" (handle e req s).1 = Some "Content-Type".
Proof. intros Hm. by rewrite handle_options. Qed.

Lemma options_preflight_witness :
  handle Sample.env1 (mkRequest "OPTIONS" "/no/such/route" Throws) posts
    = (mkResponse 200 headers NoBody, posts)
  ∧ header "content-type"
      (handle Sample.env1 (mkRequest "OPTIONS" "/no/such/route" Throws) posts).1
    = Some "application/json".
Proof.
  destruct (options_preflight Sample.env1
              (mkRequest "OPTIONS" "/no/such/route" Throws) posts) as (H1 & H2 & _).
  - reflexivity.
  - split; [exact H1 | exact H2].
Defined.

(** C4: a POST /api/posts whose body does not parse, or parses to a value
    whose title or content is missing or the empty string, is answered
    400 {error: "Title and content are required"} and the store is the
    same list afterwards. *)
Theorem post_invalid_rejected e s r :
  (r = Throws
   ∨ ∃ v, r = Parsed v
       ∧ (missing_or_empty (get_prop v "title")
          ∨ missing_or_empty (get_prop v "content"))) →
  handle e (mkRequest "POST" "/api/posts" r) s
  = (json 400 (PError "Title and content are required"), s).
Proof.
  intros Hr. rewrite handle_post by done. simpl.
  destruct Hr as [-> | (v & -> & [Ht | Hc])]; simpl.
  - done.
  - by rewrite (missing_or_empty_falsy _ Ht), orb_true_r.
  - by rewrite (missing_or_empty_falsy _ Hc), orb_true_r.
Qed.

Lemma post_invalid_rejected_witness :
  handle Sample.env1 (mkRequest "POST" "/api/posts" (Parsed Sample.empty_title)) posts
  = (json 400 (PError "Title and content are required"), posts).
Proof.
  apply (post_invalid_rejected Sample.env1 posts (Parsed Sample.empty_title)).
  right. exists Sample.empty_title. split; [reflexivity|].
  left. right. reflexivity.
Defined.

(** C10: a POST /api/posts whose body has truthy title and content and an
    author that is falsy (the empty string, null, false, 0) or absent
    creates a post whose author is "Anonymous". *)
Theorem post_falsy_author_anonymous e s v :
  truthy (get_prop v "title") = true →
  truthy (get_prop v "content") = true →
  truthy (get_prop v "author") = false →
  ∃ p, handle e (mkRequest "POST" "/api/posts" (Parsed v)) s
       = (json 201 (PPost p), s ++ [p])
     ∧ author p = VString "Anonymous".
Proof.
  intros Ht Hc Ha. rewrite handle_post by done. simpl.
  rewrite (truthy_get_prop _ _ Ht), Ht, Hc. simpl.
  eexists. split; [done|]. simpl. unfold js_or. by rewrite Ha.
Qed.

Lemma post_falsy_author_anonymous_witness :
  ∃ p, handle Sample.env1
         (mkRequest "POST" "/api/posts" (Parsed Sample.hello_no_author)) posts
       = (json 201 (PPost p), posts ++ [p])
     ∧ author p = VString "Anonymous".
Proof.
  apply (post_falsy_author_anonymous Sample.env1 posts Sample.hello_no_author);
    reflexivity.
Defined.

(** C2, as stated, fails: the body [null] parses as JSON, and a PUT that
    carries it to an existing post is answered 400 "Invalid request body". *)
Lemma put_null_body_rejected :
  let req := mkRequest "PUT" "/api/posts/1" (Parsed VNull) in
  path_id (path req) ∈ ids posts
  ∧ ¬ ((handle Sample.env1 req posts).1 = json 400 (PError "Invalid request body")
       ↔ json_body req = Throws).
Proof.
  simpl. split.
  - vm_compute. left.
  - intros [H _]. specialize (H eq_refl). discriminate H.
Qed.

(** C2, amended: a PUT /api/posts/{id} whose id is in the store is
    answered 400 {error: "Invalid request body"} exactly when the body
    does not parse or parses to a falsy value (null, false, 0, the empty
    string); every other body, the empty object and any other object,
    array, non-empty string, non-zero number or true, is answered 200. *)
Theorem put_body_check e req s :
  method req = "PUT" →
  match_post_path (path req) = true →
  path_id (path req) ∈ ids s →
  ((handle e req s).1 = json 400 (PError "Invalid request body")
   ↔ json_body req = Throws
     ∨ ∃ v, json_body req = Parsed v ∧ truthy v = false)
  ∧ (status (handle e req s).1 = 200
     ↔ ∃ v, json_body req = Parsed v ∧ truthy v = true).
Proof.
  intros Hm Hp Hin. rewrite handle_put by done.
  destruct (find_present _ _ Hin) as (k & old & ->). simpl.
  destruct (json_body req) as [v|]; simpl.
  - destruct (truthy v) eqn:Hv; simpl.
    + split; split.
      * intros [=].
      * intros [[=] | (v' & [= <-] & Hv')]. congruence.
      * eauto.
      * done.
    + split; split.
      * eauto.
      * done.
      * intros [=].
      * intros (v' & [= <-] & Hv'). congruence.
  - split; split.
    + auto.
    + done.
    + intros [=].
    + intros (v' & [=] & _).
Qed.

Lemma put_body_check_witness :
  let req := mkRequest "PUT" "/api/posts/2" (Parsed (VObject ∅)) in
  status (handle Sample.env1 req posts).1 = 200.
Proof.
  simpl.
  destruct (put_body_check Sample.env1
              (mkRequest "PUT" "/api/posts/2" (Parsed (VObject ∅))) posts)
    as [_ [_ H]].
  - reflexivity.
  - reflexivity.
  - vm_compute. right. left.
  - apply H. exists (VObject ∅). split; reflexivity.
Defined.

(** C3, as stated, fails for main.js: the response of its /data route has
    a JSON body and no CORS header. *)
Lemma main_data_without_cors :
  let r := Main.handle Sample.main_env (mkRequest "GET" "/data" Throws) in
  (∃ p, resp_body r = JsonBody p)
  ∧ header "content-type" r = Some "application/json"
  ∧ header "Access-Control-Allow-Origin" r = None
  ∧ header "Access-Control-Allow-Methods" r = None
  ∧ header "Access-Control-Allow-Headers" r = None.
Proof. simpl. split; [by eexists|done]. Qed.

(** C3, amended: every response of blog-api.js with a JSON body carries
    the four headers content-type: application/json,
    Access-Control-Allow-Origin: *, Access-Control-Allow-Methods: GET,
    POST, PUT, DELETE, OPTIONS and Access-Control-Allow-Headers:
    Content-Type; the one JSON response of main.js carries
    content-type: application/json and nothing else. *)
Theorem json_response_headers eb em req s :
  (∀ p, resp_body (handle eb req s).1 = JsonBody p →
        resp_headers (handle eb req s).1 = headers
        ∧ header "content-type" (handle eb req s).1 = Some "application/json"
        ∧ header "Access-Control-Allow-Origin" (handle eb req s).1 = Some "*"
        ∧ header "Access-Control-Allow-Methods" (handle eb req s).1
            = Some "GET, POST, PUT, DELETE, OPTIONS"
        ∧ header "Access-Control-Allow-Headers" (handle eb req s).1
            = Some "Content-Type")
  ∧ (∀ p, resp_body (Main.handle em req) = JsonBody p →
          resp_headers (Main.handle em req) = [("content-type", "application/json")]).
Proof.
  split.
  - intros p. unfold handle. by repeat case_match.
  - intros p. unfold Main.handle. by repeat case_match.
Qed.

End Claims.

(** ** Stores reached from the seed posts *)
Section Reachable.
Import BlogApi.

Lemma fresh_id_absent t e :
  rng_fresh t → is_uuid (randomUUID e) = true → randomUUID e ∉ draws t posts →
  randomUUID e ∉ ids (run t posts).
Proof.
  intros Ht Hu Hnew Hin.
  destruct (reachable_store_ok t Ht) as [_ Hids].
  destruct (Hids _ Hin) as [Hseed|Hold]; [|done].
  by apply (is_uuid_not_seed _ Hu).
Qed.

Lemma stored_id_valid (s : list post) p : store_ok s → p ∈ s → is_id (id p) = true.
Proof.
  intros [_ Hid] Hp. rewrite Forall_forall in Hid.
  apply Hid. by apply list_elem_of_fmap_2.
Qed.

Lemma rng_fresh_trace1 : rng_fresh Sample.trace1.
Proof.
  split.
  - apply NoDup_singleton.
  - by repeat constructor.
Qed.

(** An author sent as the empty string is falsy: the stored author
    stays. *)
Example put_empty_author_keeps_author :
  let req := mkRequest "PUT" "/api/posts/1"
               (Parsed (VObject {[ "author" := VString "" ]})) in
  ∃ p, (handle Sample.env1 req posts).1 = json 200 (PPost p)
     ∧ (handle Sample.env1 req posts).2 !! 0 = Some p
     ∧ author p = VString "Deno User"
     ∧ author p ≠ VString "".
Proof. simpl. eexists. repeat split; [reflexivity..|discriminate]. Qed.

(** C1: for every post in the store and every PUT to its id whose body is
    {author: x}, the returned post, which replaces the old one at its
    position, has updatedAt set to the current time and the title,
    content, createdAt and id of the old record; its author is x for
    every non-empty x, the supplied value the merge law speaks of, and
    the old author when x is the empty string.  (The generator of
    identifiers is taken not to repeat.) *)
Theorem put_author_merge t e p x :
  rng_fresh t → p ∈ run t posts →
  let s := run t posts in
  let p' := mkPost (id p) (title p) (content p)
              (if bool_decide (x = "") then author p else VString x)
              (createdAt p) (Some (now e)) in
  ∃ k, s !! k = Some p
     ∧ handle e (mkRequest "PUT" ("/api/posts/" +:+ id p)
                   (Parsed (VObject {[ "author" := VString x ]}))) s
       = (json 200 (PPost p'), <[k := p']> s)
     ∧ (x ≠ "" → author p' = VString x)
     ∧ (x = "" → author p' = author p).
Proof.
  intros Ht Hp s p'. subst s.
  destruct (reachable_store_ok t Ht) as [Hok _].
  pose proof (stored_id_valid _ _ Hok Hp) as Hid.
  destruct (find_unique _ _ (proj1 Hok) Hp) as (k & Hk & Hfind).
  exists k. split; [done|]. split; [|split].
  - rewrite handle_put; [|done|by apply match_post_path_id].
    simpl. rewrite (path_id_post_path _ Hid), Hfind. simpl.
    unfold js_or, get_prop.
    rewrite !lookup_singleton_ne by done. rewrite lookup_singleton_eq. simpl.
    subst p'. by case_bool_decide.
  - intros Hx. subst p'. simpl. by rewrite bool_decide_eq_false_2.
  - intros Hx. subst p'. simpl. by rewrite bool_decide_eq_true_2.
Qed.

Lemma put_author_merge_witness :
  let s := run Sample.trace1 posts in
  ∃ p p' k, s !! k = Some p ∧ author p' = VString "X" ∧ title p' = title p
    ∧ handle Sample.env2 (mkRequest "PUT" ("/api/posts/" +:+ id p)
                            (Parsed (VObject {[ "author" := VString "X" ]}))) s
      = (json 200 (PPost p'), <[k := p']> s).
Proof.
  pose (p := mkPost Sample.uuid1 (VString "Hi") (VString "World")
               (VString "Anonymous") "2026-01-01T00:00:00.000Z" None).
  destruct (put_author_merge Sample.trace1 Sample.env2 p "X")
    as (k & Hk & H & Hx & _).
  - exact rng_fresh_trace1.
  - apply list_elem_of_In. vm_compute. right. right. left. reflexivity.
  - simpl.
    refine (ex_intro _ p (ex_intro _ _ (ex_intro _ k
              (conj Hk (conj (Hx _) (conj _ H)))))); [discriminate|reflexivity].
Defined.

Lemma fresh_env2_trace1 :
  is_uuid (randomUUID Sample.env2) = true
  ∧ randomUUID Sample.env2 ∉ draws Sample.trace1 posts.
Proof.
  split; [reflexivity|].
  intros Hin%list_elem_of_In. vm_compute in Hin.
  destruct Hin as [Hin|[]]. discriminate Hin.
Qed.

(** C9: a POST /api/posts whose body has truthy title and content and no
    author creates a post with author "Anonymous", createdAt the current
    time, and an id that is a non-empty string and the id of no post
    already stored.  (The generator of identifiers is taken to return a
    well-formed UUID that it has not returned before.) *)
Theorem post_without_author t e v :
  rng_fresh t → is_uuid (randomUUID e) = true → randomUUID e ∉ draws t posts →
  truthy (get_prop v "title") = true →
  truthy (get_prop v "content") = true →
  get_prop v "author" = VUndefined →
  let s := run t posts in
  ∃ p, handle e (mkRequest "POST" "/api/posts" (Parsed v)) s
       = (json 201 (PPost p), s ++ [p])
     ∧ author p = VString "Anonymous"
     ∧ createdAt p = now e
     ∧ id p ≠ ""
     ∧ id p ∉ ids s.
Proof.
  intros Ht Hu Hnew Htitle Hcontent Hauthor s.
  rewrite handle_post by done. simpl.
  rewrite (truthy_get_prop _ _ Htitle), Htitle, Hcontent. simpl.
  eexists. split; [done|]. simpl. rewrite Hauthor.
  repeat split.
  - intros Hempty. unfold generateId in Hempty. by rewrite Hempty in Hu.
  - by apply fresh_id_absent.
Qed.

Lemma post_without_author_witness :
  let s := run Sample.trace1 posts in
  ∃ p, handle Sample.env2 (mkRequest "POST" "/api/posts" (Parsed Sample.hello)) s
       = (json 201 (PPost p), s ++ [p])
     ∧ author p = VString "Anonymous"
     ∧ createdAt p = now Sample.env2
     ∧ id p ≠ ""
     ∧ id p ∉ ids s.
Proof.
  apply (post_without_author Sample.trace1 Sample.env2 Sample.hello).
  - exact rng_fresh_trace1.
  - reflexivity.
  - exact (proj2 fresh_env2_trace1).
  - reflexivity.
  - reflexivity.
  - reflexivity.
Defined.

(** C5: after a POST /api/posts answered 201, a GET /api/posts/{id} with
    the id of the returned post is answered 200 with that same post.
    (The generator of identifiers is taken to return a well-formed UUID
    that it has not returned before.) *)
Theorem create_then_fetch t e req e' b :
  rng_fresh t → is_uuid (randomUUID e) = true → randomUUID e ∉ draws t posts →
  method req = "POST" → path req = "/api/posts" →
  status (handle e req (run t posts)).1 = 201 →
  ∃ p, (handle e req (run t posts)).1 = json 201 (PPost p)
     ∧ let s' := (handle e req (run t posts)).2 in
       handle e' (mkRequest "GET" ("/api/posts/" +:+ id p) b) s'
       = (json 200 (PPost p), s').
Proof.
  intros Ht Hu Hnew Hm Hp. rewrite handle_post by done. simpl.
  destruct (_ || _); simpl; [discriminate|]. intros _.
  eexists. split; [done|].
  rewrite handle_get; [|done|by apply match_post_path_id, is_uuid_is_id].
  simpl. rewrite path_id_post_path by by apply is_uuid_is_id.
  rewrite list_find_app_r.
  - simpl. by rewrite decide_True.
  - by apply find_absent, fresh_id_absent.
Qed.

Lemma create_then_fetch_witness :
  ∃ p, (handle Sample.env2 Sample.create_hello (run Sample.trace1 posts)).1
       = json 201 (PPost p)
     ∧ let s' := (handle Sample.env2 Sample.create_hello (run Sample.trace1 posts)).2 in
       handle Sample.env1 (mkRequest "GET" ("/api/posts/" +:+ id p) Throws) s'
       = (json 200 (PPost p), s').
Proof.
  apply (create_then_fetch Sample.trace1 Sample.env2 Sample.create_hello
           Sample.env1 Throws).
  - exact rng_fresh_trace1.
  - reflexivity.
  - exact (proj2 fresh_env2_trace1).
  - reflexivity.
  - reflexivity.
  - reflexivity.
Defined.

(** C6: for every id in the store, DELETE /api/posts/{id} is answered 200
    with {message, post} holding the removed post, and afterwards GET
    /api/posts/{id} and a second DELETE /api/posts/{id} are both answered
    404 {error: "Post not found"}.  (The generator of identifiers is taken
    not to repeat.) *)
Theorem delete_then_gone t i e1 e2 e3 b1 b2 b3 :
  rng_fresh t → i ∈ ids (run t posts) →
  let s := run t posts in
  ∃ k p, s !! k = Some p ∧ id p = i
    ∧ handle e1 (mkRequest "DELETE" ("/api/posts/" +:+ i) b1) s
      = (json 200 (PDeleted "Post deleted successfully" p), delete k s)
    ∧ handle e2 (mkRequest "GET" ("/api/posts/" +:+ i) b2) (delete k s)
      = (json 404 (PError "Post not found"), delete k s)
    ∧ handle e3 (mkRequest "DELETE" ("/api/posts/" +:+ i) b3) (delete k s)
      = (json 404 (PError "Post not found"), delete k s).
Proof.
  intros Ht Hi s. subst s.
  destruct (reachable_store_ok t Ht) as [[Hnd Hids] _].
  assert (is_id i = true) as Hid.
  { rewrite Forall_forall in Hids. by apply Hids. }
  destruct (find_present _ _ Hi) as (k & p & Hfind).
  destruct (find_found _ _ _ _ Hfind) as [Hk Hp].
  pose proof (removed_id_absent _ _ _ Hnd Hk) as Hgone. rewrite Hp in Hgone.
  exists k, p. repeat split; [done..| | |].
  - rewrite handle_delete; [|done|by apply match_post_path_id].
    simpl. by rewrite (path_id_post_path _ Hid), Hfind.
  - rewrite handle_get; [|done|by apply match_post_path_id].
    simpl. by rewrite (path_id_post_path _ Hid), (find_absent _ _ Hgone).
  - rewrite handle_delete; [|done|by apply match_post_path_id].
    simpl. by rewrite (path_id_post_path _ Hid), (find_absent _ _ Hgone).
Qed.

Lemma delete_then_gone_witness :
  let s := run Sample.trace1 posts in
  ∃ k p, s !! k = Some p ∧ id p = Sample.uuid1
    ∧ handle Sample.env2 (mkRequest "DELETE" ("/api/posts/" +:+ Sample.uuid1) Throws) s
      = (json 200 (PDeleted "Post deleted successfully" p), delete k s)
    ∧ handle Sample.env2 (mkRequest "GET" ("/api/posts/" +:+ Sample.uuid1) Throws)
        (delete k s)
      = (json 404 (PError "Post not found"), delete k s)
    ∧ handle Sample.env2 (mkRequest "DELETE" ("/api/posts/" +:+ Sample.uuid1) Throws)
        (delete k s)
      = (json 404 (PError "Post not found"), delete k s).
Proof.
  apply (delete_then_gone Sample.trace1 Sample.uuid1
           Sample.env2 Sample.env2 Sample.env2 Throws Throws Throws).
  - exact rng_fresh_trace1.
  - apply list_elem_of_In. vm_compute. right. right. left. reflexivity.
Defined.

End Reachable.

(** ** Listing *)
Section Listing.
Import BlogApi.

(** While no reply reports a deletion, the identifiers in the store are
    those it started with followed by those of the posts created, in the
    order of creation; without updates the posts themselves are. *)
Lemma run_no_delete t :
  ∀ s, Forall (λ r, deleted r = false) (replies t s) →
  ids (run t s) = ids s ++ ids (omap created (replies t s))
  ∧ (Forall (λ ev : event, method ev.2 ≠ "PUT") t →
     run t s = s ++ omap created (replies t s)).
Proof.
  induction t as [|[e req] t IH]; intros s Hdel; simpl in *.
  - rewrite !app_nil_r. done.
  - apply Forall_cons in Hdel as [Hr Hdel].
    destruct (IH _ Hdel) as [IHids IHall].
    pose proof (handle_effect e req s) as Heff.
    unfold step in *. simpl in *.
    destruct (handle e req s) as [r s1]. simpl in *.
    destruct Heff as [r Hc _ | p _ _ | r i old p Hm Hi Hp Hc _ | r i p _ _ Hd].
    + rewrite Hc. split; [done|].
      intros [_ Hput]%Forall_cons. auto.
    + simpl. split.
      * rewrite IHids. unfold ids. rewrite !fmap_app, fmap_cons.
        by rewrite <- app_assoc.
      * intros [_ Hput]%Forall_cons. rewrite (IHall Hput).
        by rewrite <- app_assoc.
    + rewrite Hc. split.
      * rewrite IHids. f_equal. unfold ids.
        rewrite list_fmap_insert, Hp. apply list_insert_id.
        by rewrite list_lookup_fmap, Hi.
      * intros [Hput _]%Forall_cons. done.
    + congruence.
Qed.

(** C7: from the two seed posts, while nothing is deleted, GET /api/posts
    returns the store as it is and leaves it as it is; it holds N+2 posts
    after N creates answered 201: the two seeds first, then the created
    posts in the order of their creation. *)
Theorem list_after_creates t e b :
  Forall (λ r, deleted r = false) (replies t posts) →
  let s := run t posts in
  let made := omap created (replies t posts) in
  handle e (mkRequest "GET" "/api/posts" b) s = (json 200 (PPosts s), s)
  ∧ length s = length made + 2
  ∧ ids s = ["1"; "2"] ++ ids made
  ∧ (Forall (λ ev : event, method ev.2 ≠ "PUT") t → s = posts ++ made).
Proof.
  intros Hdel s made.
  destruct (run_no_delete t posts Hdel) as [Hids Hall].
  split; [by rewrite handle_list|].
  split; [|split; [done|done]].
  transitivity (length (ids s)); [unfold ids; by rewrite length_fmap|].
  subst s. rewrite Hids. rewrite length_app. unfold ids at 2.
  rewrite length_fmap. simpl. fold made. lia.
Qed.

Lemma list_after_creates_witness :
  let t := Sample.trace1 ++ [(Sample.env2, Sample.create_hello)] in
  let s := run t posts in
  let made := omap created (replies t posts) in
  handle Sample.env1 (mkRequest "GET" "/api/posts" Throws) s
    = (json 200 (PPosts s), s)
  ∧ length s = length made + 2
  ∧ ids s = ["1"; "2"] ++ ids made
  ∧ (Forall (λ ev : event, method ev.2 ≠ "PUT") t → s = posts ++ made).
Proof.
  apply (list_after_creates
           (Sample.trace1 ++ [(Sample.env2, Sample.create_hello)])
           Sample.env1 Throws).
  vm_compute. repeat constructor.
Defined.

End Listing.

(** Deciding every comparison of the method and the path with the
    constants of the routes. *)
Ltac decide_routes :=
  unfold BlogApi.handle; simpl;
  repeat (case_bool_decide; simplify_eq/=; try done).

(** ** The route table of blog-api.js *)
Section Routing.
Import BlogApi.

(** X1: a GET, PUT or DELETE on /api/posts/{id} whose id is not in the
    store is answered 404 {error: "Post not found"} and leaves the store
    alone; for a PUT this comes before the body is read, so an
    unparseable body on an unknown id is a 404, not a 400. *)
Theorem unknown_id_not_found e req s :
  method req ∈ ["GET"; "PUT"; "DELETE"] →
  match_post_path (path req) = true →
  path_id (path req) ∉ ids s →
  handle e req s = (json 404 (PError "Post not found"), s).
Proof.
  intros Hm Hp Hid. apply find_absent in Hid.
  repeat (apply elem_of_cons in Hm as [Hm|Hm]).
  - rewrite handle_get by done. by rewrite Hid.
  - rewrite handle_put by done. by rewrite Hid.
  - rewrite handle_delete by done. by rewrite Hid.
  - by apply elem_of_nil in Hm.
Qed.

Lemma unknown_id_not_found_witness :
  handle Sample.env1 (mkRequest "PUT" "/api/posts/no-such-post" Throws) posts
  = (json 404 (PError "Post not found"), posts).
Proof.
  apply (unknown_id_not_found Sample.env1
           (mkRequest "PUT" "/api/posts/no-such-post" Throws) posts).
  - right. left.
  - reflexivity.
  - intros Hin%list_elem_of_In. vm_compute in Hin.
    destruct Hin as [Hin|[Hin|[]]]; discriminate Hin.
Defined.

(** X2: the generic 404 {error: "Not Found"} is the answer exactly when
    the method is not OPTIONS, the path is not "/", the request is not a
    GET or POST on /api/posts, and it is not a GET, PUT or DELETE on a
    path of the form /api/posts/{id}. *)
Theorem not_found_iff e req s :
  (handle e req s).1 = json 404 (PError "Not Found") ↔
  method req ≠ "OPTIONS" ∧ path req ≠ "/"
  ∧ ¬ (path req = "/api/posts" ∧ (method req = "GET" ∨ method req = "POST"))
  ∧ ¬ (match_post_path (path req) = true
       ∧ (method req = "GET" ∨ method req = "PUT" ∨ method req = "DELETE")).
Proof.
  destruct req as [m p b]; simpl.
  destruct (decide (m = "OPTIONS")) as [->|Hopt].
  { rewrite handle_options by done. split; [discriminate|]. by intros [? _]. }
  destruct (match_post_path p) eqn:Hp.
  - pose proof (match_post_path_not_list _ Hp) as Hlist.
    pose proof (match_post_path_not_home _ Hp) as Hhome.
    destruct (decide (m = "GET")) as [->|Hget].
    { rewrite handle_get by done. split.
      - simpl. repeat case_match; simpl; intros ?; simplify_eq/=.
      - intros (_ & _ & _ & Hn). destruct Hn. auto. }
    destruct (decide (m = "PUT")) as [->|Hput].
    { rewrite handle_put by done. split.
      - simpl. repeat case_match; simpl; intros ?; simplify_eq/=.
      - intros (_ & _ & _ & Hn). destruct Hn. auto. }
    destruct (decide (m = "DELETE")) as [->|Hdel].
    { rewrite handle_delete by done. split.
      - simpl. repeat case_match; simpl; intros ?; simplify_eq/=.
      - intros (_ & _ & _ & Hn). destruct Hn. auto. }
    split.
    + intros _. repeat split; try done.
      * by intros [? _].
      * by intros [_ [?|[?|?]]].
    + intros _. unfold handle; simpl. rewrite Hp. by decide_routes.
  - destruct (decide (p = "/api/posts")) as [->|Hlist].
    { destruct (decide (m = "GET")) as [->|Hget].
      { rewrite handle_list by done. split; [discriminate|].
        intros (_ & _ & Hn & _). destruct Hn. auto. }
      destruct (decide (m = "POST")) as [->|Hpost].
      { rewrite handle_post by done. split.
        - simpl. repeat case_match; simpl; intros ?; simplify_eq/=.
        - intros (_ & _ & Hn & _). destruct Hn. auto. }
      split.
      - intros _. repeat split; try done.
        + by intros [_ [?|?]].
        + by intros [? _].
      - intros _. by decide_routes. }
    destruct (decide (p = "/")) as [->|Hhome].
    { split.
      - by decide_routes.
      - by intros (_ & ? & _). }
    split.
    + intros _. repeat split; try done.
      * by intros [? _].
      * by intros [? _].
    + intros _. unfold handle; simpl. rewrite Hp. by decide_routes.
Qed.

Lemma handle_home e m b s :
  m ≠ "OPTIONS" →
  handle e (mkRequest m "/" b) s = (ok [("content-type", "text/html")] HomePage, s).
Proof. intros Hm. by decide_routes. Qed.

(** A response is the bodiless preflight answer, a JSON answer, or the
    HTML page. *)
Lemma handle_shape e req s :
  (handle e req s).1 = ok headers NoBody
  ∨ (∃ st p, (handle e req s).1 = json st p)
  ∨ (handle e req s = (ok [("content-type", "text/html")] HomePage, s)
     ∧ path req = "/" ∧ method req ≠ "OPTIONS").
Proof.
  unfold handle.
  repeat case_match; simpl; eauto.
  right; right. repeat split.
  - match goal with H : bool_decide (path req = "/") = true |- _ =>
      by apply bool_decide_eq_true in H end.
  - match goal with H : bool_decide (method req = "OPTIONS") = false |- _ =>
      by apply bool_decide_eq_false in H end.
Qed.

(** X3: the HTML page is the answer exactly when the path is "/" and the
    method is not OPTIONS, whatever the method otherwise; it is sent with
    content-type text/html alone and the store is left alone.  Every
    other response carries the JSON and CORS headers. *)
Theorem home_page_iff e req s :
  (resp_body (handle e req s).1 = HomePage
   ↔ path req = "/" ∧ method req ≠ "OPTIONS")
  ∧ (resp_body (handle e req s).1 = HomePage →
     handle e req s = (ok [("content-type", "text/html")] HomePage, s))
  ∧ (resp_body (handle e req s).1 ≠ HomePage →
     resp_headers (handle e req s).1 = headers).
Proof.
  assert (path req = "/" ∧ method req ≠ "OPTIONS" →
          handle e req s = (ok [("content-type", "text/html")] HomePage, s))
    as Hhome.
  { destruct req as [m p b]; simpl. intros [-> Hm]. by apply handle_home. }
  destruct (handle_shape e req s) as [Hr|[(st & p & Hr)|(Hr & Hp & Hm)]].
  - rewrite Hr; simpl. split; [split; [done|]|done].
    intros H. apply Hhome in H. rewrite H in Hr. discriminate Hr.
  - rewrite Hr; simpl. split; [split; [done|]|done].
    intros H. apply Hhome in H. rewrite H in Hr. discriminate Hr.
  - rewrite Hr; simpl. split; [split; done|done].
Qed.

(** X4: the status is always 200, 201, 400 or 404, and a response with
    status 400 or 404 has a body {error: ...} and leaves the store as it
    was. *)
Theorem errors_leave_store e req s :
  status (handle e req s).1 ∈ [200; 201; 400; 404]
  ∧ (400 ≤ status (handle e req s).1 →
     (handle e req s).2 = s
     ∧ ∃ msg, resp_body (handle e req s).1 = JsonBody (PError msg)).
Proof.
  unfold handle. repeat case_match; simpl;
    (split; [apply list_elem_of_In; simpl; auto 6|]);
    intros Hst; try lia; eauto.
Qed.

(** X5: only POST, PUT and DELETE requests can change the store. *)
Theorem only_writes_change_store e req s :
  method req ∉ ["POST"; "PUT"; "DELETE"] → (handle e req s).2 = s.
Proof.
  intros Hm. unfold handle.
  repeat case_match; simpl; try done;
    exfalso; apply Hm;
    match goal with
    | H : _ && bool_decide (method req = _) = true |- _ =>
        apply andb_prop in H as [_ ->%bool_decide_eq_true]
    end; apply list_elem_of_In; simpl; auto.
Qed.

Lemma only_writes_change_store_witness :
  (handle Sample.env1 (mkRequest "GET" "/api/posts/1" Throws) posts).2 = posts.
Proof.
  apply (only_writes_change_store Sample.env1
           (mkRequest "GET" "/api/posts/1" Throws) posts).
  intros Hin%list_elem_of_In. vm_compute in Hin.
  destruct Hin as [Hin|[Hin|[Hin|[]]]]; discriminate Hin.
Defined.

(** X6: a path matches the /api/posts/{id} pattern exactly when it is
    "/api/posts/" followed by a non-empty run of letters, digits,
    underscores and hyphens, and then the id taken by split-and-pop is
    that run. *)
Theorem match_post_path_iff p :
  match_post_path p = true
  ↔ p = "/api/posts/" +:+ path_id p ∧ is_id (path_id p) = true.
Proof.
  split.
  - intros (r & Hp & Hr & Hid)%match_post_path_inv. by rewrite Hid, <- Hp.
  - intros [Hp Hr]. rewrite Hp. by apply match_post_path_id.
Qed.

End Routing.

(** ** Creating and updating *)
Section Writing.
Import BlogApi.

(** X7: a POST /api/posts is answered 201 exactly when the body parses to
    a value whose title and content are both truthy, of whatever type;
    otherwise it is answered 400.  On a 201 the post is appended with the
    title and content of the body, the generated id and no updatedAt. *)
Theorem post_created_iff e req s :
  method req = "POST" → path req = "/api/posts" →
  (status (handle e req s).1 = 201
   ↔ ∃ v, json_body req = Parsed v
        ∧ truthy (get_prop v "title") = true
        ∧ truthy (get_prop v "content") = true)
  ∧ (status (handle e req s).1 ≠ 201 →
     handle e req s = (json 400 (PError "Title and content are required"), s))
  ∧ (∀ v, json_body req = Parsed v → status (handle e req s).1 = 201 →
     ∃ p, handle e req s = (json 201 (PPost p), s ++ [p])
        ∧ id p = randomUUID e
        ∧ title p = get_prop v "title" ∧ content p = get_prop v "content"
        ∧ updatedAt p = None).
Proof.
  intros Hm Hp. rewrite handle_post by done. simpl.
  destruct (json_body req) as [v|]; simpl.
  - destruct (truthy (get_prop v "title")) eqn:Ht; simpl.
    + rewrite (truthy_get_prop _ _ Ht). simpl.
      destruct (truthy (get_prop v "content")) eqn:Hc; simpl.
      * split; [split; [eauto|done]|]. split; [done|].
        intros v' [= <-] _. eexists. by repeat split.
      * split; [split; [done|]|].
        { intros (v' & [= <-] & _ & Hc'). congruence. }
        split; [done|]. done.
    + rewrite orb_true_r. simpl. split; [split; [done|]|].
      { intros (v' & [= <-] & Ht' & _). congruence. }
      split; [done|]. done.
  - split; [split; [done|]|].
    { by intros (v' & [=] & _). }
    split; [done|]. done.
Qed.

Lemma post_created_iff_witness :
  let v := VObject (<["title" := VNumber 5%float]> {["content" := VArray []]}) in
  ∃ p, handle Sample.env1 (mkRequest "POST" "/api/posts" (Parsed v)) posts
       = (json 201 (PPost p), posts ++ [p])
     ∧ title p = VNumber 5%float ∧ content p = VArray [].
Proof.
  simpl.
  destruct (post_created_iff Sample.env1
              (mkRequest "POST" "/api/posts"
                 (Parsed (VObject (<["title" := VNumber 5%float]>
                                     {["content" := VArray []]})))) posts)
    as (Hiff & _ & Hpost); [reflexivity..|].
  destruct (Hpost _ eq_refl) as (p & Hp & _ & Ht & Hc & _).
  - apply Hiff. eexists. by repeat split.
  - exists p. repeat split; [exact Hp|exact Ht|exact Hc].
Defined.

Lemma js_or_idem a b : js_or a (js_or a b) = js_or a b.
Proof. unfold js_or. by destruct (truthy a). Qed.

Lemma js_or_truthy a b : truthy b = true → truthy (js_or a b) = true.
Proof. unfold js_or. by destruct (truthy a) eqn:Ha. Qed.

(** X8: PUT /api/posts/{id} is idempotent up to the time stamp: sending
    the same PUT again after a first one answered 200 gives the same post
    with updatedAt moved to the new time, and changes nothing else in the
    store. *)
Theorem put_idempotent e e' req s :
  method req = "PUT" → match_post_path (path req) = true →
  status (handle e req s).1 = 200 →
  ∃ k p, k < length s
    ∧ handle e req s = (json 200 (PPost p), <[k := p]> s)
    ∧ let p' := mkPost (id p) (title p) (content p) (author p)
                  (createdAt p) (Some (now e')) in
      handle e' req (<[k := p]> s) = (json 200 (PPost p'), <[k := p']> s).
Proof.
  intros Hm Hp Hst.
  revert Hst. rewrite !handle_put by done.
  destruct (list_find _ s) as [[k old]|] eqn:Hfind; simpl; [|done].
  destruct (truthy (parseJsonBody (json_body req))) eqn:Hb; simpl; [|done].
  intros _.
  apply list_find_Some in Hfind as (Hk & Hid & Hbefore).
  eexists k, _. split; [by eapply lookup_lt_Some|]. split; [done|].
  simpl. rewrite handle_put by done.
  match goal with |- context [list_find ?P (<[k := ?p]> s)] =>
    assert (list_find P (<[k := p]> s) = Some (k, p)) as -> end.
  { apply list_find_Some. split; [|split].
    - apply list_lookup_insert_eq. by eapply lookup_lt_Some.
    - done.
    - intros j y Hj Hlt. rewrite list_lookup_insert_ne in Hj by lia.
      by eapply Hbefore. }
  simpl. rewrite Hb. simpl. rewrite !js_or_idem.
  by rewrite list_insert_insert_eq.
Qed.

Lemma put_idempotent_witness :
  let req := mkRequest "PUT" "/api/posts/2"
               (Parsed (VObject {[ "title" := VString "New" ]})) in
  ∃ k p, k < length posts
    ∧ handle Sample.env1 req posts = (json 200 (PPost p), <[k := p]> posts)
    ∧ let p' := mkPost (id p) (title p) (content p) (author p)
                  (createdAt p) (Some (now Sample.env2)) in
      handle Sample.env2 req (<[k := p]> posts)
      = (json 200 (PPost p'), <[k := p']> posts).
Proof.
  apply (put_idempotent Sample.env1 Sample.env2
           (mkRequest "PUT" "/api/posts/2"
              (Parsed (VObject {[ "title" := VString "New" ]}))) posts);
    reflexivity.
Defined.

(** X9: a PUT never changes which identifiers are stored, nor their
    order, nor the number of posts. *)
Theorem put_keeps_ids e req s :
  method req = "PUT" →
  ids (handle e req s).2 = ids s ∧ length (handle e req s).2 = length s.
Proof.
  intros Hm. destruct (match_post_path (path req)) eqn:Hp.
  - rewrite handle_put by done.
    destruct (list_find _ s) as [[k old]|] eqn:Hfind; simpl; [|done].
    destruct (negb _); simpl; [done|].
    apply list_find_Some in Hfind as (Hk & _ & _).
    split; [|by rewrite length_insert].
    unfold ids. rewrite list_fmap_insert. simpl.
    apply list_insert_id. by rewrite list_lookup_fmap, Hk.
  - assert ((handle e req s).2 = s) as ->; [|done].
    unfold handle. rewrite Hm, Hp. simpl.
    repeat case_bool_decide; simpl; done.
Qed.

Lemma put_keeps_ids_witness :
  ids (handle Sample.env1
         (mkRequest "PUT" "/api/posts/1"
            (Parsed (VObject {[ "title" := VString "New" ]}))) posts).2
  = ["1"; "2"].
Proof.
  apply (put_keeps_ids Sample.env1
           (mkRequest "PUT" "/api/posts/1"
              (Parsed (VObject {[ "title" := VString "New" ]}))) posts).
  reflexivity.
Defined.

End Writing.

(** ** Invariants of the store *)
Section StoreInvariants.
Import BlogApi.

Lemma handle_keeps_truthy e req s :
  Forall (λ p, truthy (title p) = true ∧ truthy (content p) = true
               ∧ truthy (author p) = true) s →
  Forall (λ p, truthy (title p) = true ∧ truthy (content p) = true
               ∧ truthy (author p) = true) (handle e req s).2.
Proof.
  intros Hs. unfold handle. repeat case_match; simpl; try done.
  - apply Forall_app. split; [done|]. constructor; [|done]. simpl.
    match goal with H : _ || _ || _ = false |- _ =>
      apply orb_false_elim in H as [[_ Ht%negb_false_iff]%orb_false_elim
                                     Hc%negb_false_iff] end.
    by rewrite js_or_truthy.
  - match goal with H : list_find _ _ = Some _ |- _ =>
      apply list_find_Some in H as (Hk & _ & _) end.
    rewrite Forall_lookup in Hs. destruct (Hs _ _ Hk) as (Ht & Hc & Ha).
    apply Forall_insert; [by apply Forall_lookup|]. simpl.
    by rewrite !js_or_truthy.
  - by apply Forall_delete.
Qed.

(** X10: whatever requests are served, every stored post keeps a truthy
    (so non-empty) title, content and author: an update cannot blank a
    field. *)
Theorem stored_fields_truthy t :
  Forall (λ p, truthy (title p) = true ∧ truthy (content p) = true
               ∧ truthy (author p) = true) (run t posts).
Proof.
  assert (∀ s, Forall (λ p, truthy (title p) = true ∧ truthy (content p) = true
                            ∧ truthy (author p) = true) s →
               Forall (λ p, truthy (title p) = true ∧ truthy (content p) = true
                            ∧ truthy (author p) = true) (run t s)) as Hrun.
  { induction t as [|[e req] t IH]; intros s Hs; simpl; [done|].
    apply IH. by apply handle_keeps_truthy. }
  apply Hrun. by repeat constructor.
Qed.

(** X11: after any sequence of requests from the seed posts, the number
    of stored posts is 2, plus the number of replies with status 201,
    minus the number of replies that report a deletion. *)
Theorem store_size t :
  length (run t posts)
    + length (filter (λ r, deleted r = true) (replies t posts))
  = 2 + length (omap created (replies t posts)).
Proof.
  assert (∀ s, length (run t s)
               + length (filter (λ r, deleted r = true) (replies t s))
               = length s + length (omap created (replies t s))) as Hrun.
  { induction t as [|[e req] t IH]; intros s; simpl; [done|].
    pose proof (handle_effect e req s) as Heff.
    specialize (IH (step s (e, req))). unfold step in *. simpl in *.
    destruct (handle e req s) as [r s1]. simpl in *.
    destruct Heff as [r Hc Hd | p _ _ | r i old p _ _ _ Hc Hd | r i p Hi Hc Hd].
    - rewrite Hc. rewrite filter_cons_False by congruence. done.
    - csimpl. rewrite filter_cons_False by done.
      rewrite length_app in IH. csimpl in *. lia.
    - rewrite Hc. rewrite filter_cons_False by congruence.
      rewrite length_insert in IH. done.
    - rewrite Hc. rewrite filter_cons_True by done.
      rewrite length_delete in IH by eauto.
      apply lookup_lt_Some in Hi. csimpl. lia. }
  apply Hrun.
Qed.

End StoreInvariants.

(** ** Requests on one post leave the others alone *)
Section Frame.
Import BlogApi.

Lemma list_find_insert_other {A} (P : A → Prop) `{∀ x, Decision (P x)}
    (l : list A) k old u :
  l !! k = Some old → ¬ P old → ¬ P u →
  list_find P (<[k := u]> l) = list_find P l.
Proof.
  revert k. induction l as [|x l IH]; intros [|k] Hk Hold Hu; simplify_eq/=.
  - by rewrite !decide_False.
  - case_decide; [done|]. by rewrite (IH k).
Qed.

Lemma list_find_delete_other {A} (P : A → Prop) `{∀ x, Decision (P x)}
    (l : list A) k old :
  l !! k = Some old → ¬ P old →
  snd <$> list_find P (delete k l) = snd <$> list_find P l.
Proof.
  revert k. induction l as [|x l IH]; intros [|k] Hk Hold; simplify_eq/=.
  - rewrite decide_False by done. by destruct (list_find P l) as [[]|].
  - case_decide; [done|]. specialize (IH k Hk Hold).
    destruct (list_find P (delete k l)) as [[]|], (list_find P l) as [[]|];
      simplify_eq/=; done.
Qed.

Lemma find_frame e req (s : list post) j :
  j ∈ ids s → path req ≠ "/api/posts/" +:+ j →
  snd <$> list_find (λ q, id q = j) (handle e req s).2
  = snd <$> list_find (λ q, id q = j) s.
Proof.
  intros Hj Hpath.
  assert (∀ b, match_post_path (path req) && b = true →
               path_id (path req) ≠ j) as Hother.
  { intros b [(r & Hp & _ & Hr)%match_post_path_inv _]%andb_prop <-.
    congruence. }
  unfold handle. repeat case_match; simpl; try done.
  - destruct (find_present _ _ Hj) as (k & p & Hfind).
    by rewrite (list_find_app_l _ _ _ _ _ Hfind), Hfind.
  - match goal with H : list_find _ _ = Some _ |- _ =>
      apply list_find_Some in H as (Hk & Hid & _) end.
    erewrite list_find_insert_other; [done..| |]; simpl.
    + rewrite Hid. eauto.
    + rewrite Hid. eauto.
  - match goal with H : list_find _ _ = Some _ |- _ =>
      apply list_find_Some in H as (Hk & Hid & _) end.
    eapply list_find_delete_other; [done|]. rewrite Hid. eauto.
Qed.

(** X12: a request whose path is not /api/posts/{j} does not change what
    GET /api/posts/{j} answers for a stored id j: creating, updating or
    deleting another post leaves this one as it was, and a created post
    never hides an existing one. *)
Theorem other_posts_untouched e e' req s j b :
  is_id j = true → j ∈ ids s → path req ≠ "/api/posts/" +:+ j →
  (handle e' (mkRequest "GET" ("/api/posts/" +:+ j) b) (handle e req s).2).1
  = (handle e' (mkRequest "GET" ("/api/posts/" +:+ j) b) s).1.
Proof.
  intros Hid Hj Hpath.
  rewrite (handle_get e' _ (handle e req s).2), (handle_get e' _ s)
    by (done || by apply match_post_path_id).
  simpl. rewrite (path_id_post_path _ Hid).
  pose proof (find_frame e req s j Hj Hpath) as Hfind.
  destruct (list_find _ (handle e req s).2) as [[]|],
    (list_find _ s) as [[]|]; simplify_eq/=; done.
Qed.

Lemma other_posts_untouched_witness :
  (handle Sample.env2 (mkRequest "GET" ("/api/posts/" +:+ "2") Throws)
     (handle Sample.env1 (mkRequest "DELETE" "/api/posts/1" Throws) posts).2).1
  = (handle Sample.env2 (mkRequest "GET" ("/api/posts/" +:+ "2") Throws) posts).1.
Proof.
  apply (other_posts_untouched Sample.env1 Sample.env2
           (mkRequest "DELETE" "/api/posts/1" Throws) posts "2" Throws).
  - reflexivity.
  - apply list_elem_of_In. vm_compute. right. left. reflexivity.
  - discriminate.
Defined.

(** X13: creating a post and then deleting it by the returned id gives
    back the store as it was, when the generated id could be carried by a
    path and was not already in the store. *)
Theorem create_then_delete e e' v b s :
  truthy (get_prop v "title") = true →
  truthy (get_prop v "content") = true →
  is_id (randomUUID e) = true → randomUUID e ∉ ids s →
  ∃ p, handle e (mkRequest "POST" "/api/posts" (Parsed v)) s
       = (json 201 (PPost p), s ++ [p])
     ∧ handle e' (mkRequest "DELETE" ("/api/posts/" +:+ id p) b) (s ++ [p])
       = (json 200 (PDeleted "Post deleted successfully" p), s).
Proof.
  intros Ht Hc Hid Hnew. rewrite handle_post by done. simpl.
  rewrite (truthy_get_prop _ _ Ht), Ht, Hc. simpl.
  eexists. split; [done|]. simpl. unfold generateId.
  rewrite handle_delete; [|done|by apply match_post_path_id].
  simpl. rewrite (path_id_post_path _ Hid).
  rewrite list_find_app_r by by apply find_absent.
  simpl. rewrite decide_True by done. simpl.
  f_equal. rewrite (delete_middle s []). apply app_nil_r.
Qed.

Lemma create_then_delete_witness :
  ∃ p, handle Sample.env1 (mkRequest "POST" "/api/posts" (Parsed Sample.hello)) posts
       = (json 201 (PPost p), posts ++ [p])
     ∧ handle Sample.env2 (mkRequest "DELETE" ("/api/posts/" +:+ id p) Throws)
         (posts ++ [p])
       = (json 200 (PDeleted "Post deleted successfully" p), posts).
Proof.
  apply (create_then_delete Sample.env1 Sample.env2 Sample.hello Throws posts).
  - reflexivity.
  - reflexivity.
  - reflexivity.
  - intros Hin%list_elem_of_In. vm_compute in Hin.
    destruct Hin as [Hin|[Hin|[]]]; discriminate Hin.
Defined.

End Frame.

(** ** Identity of posts over time *)
Section Identity.
Import BlogApi.

Lemma run_app t t' s : run (t ++ t') s = run t' (run t s).
Proof. apply foldl_app. Qed.

Lemma draws_app t t' : ∀ s, draws (t ++ t') s = draws t s ++ draws t' (run t s).
Proof.
  induction t as [|ev t IH]; intros s; simpl; [done|].
  by rewrite IH, app_assoc.
Qed.

Lemma rng_fresh_app_l t t' : rng_fresh (t ++ t') → rng_fresh t.
Proof.
  unfold rng_fresh. rewrite draws_app, NoDup_app, Forall_app.
  by intros [(? & _ & _) [? _]].
Qed.

Lemma same_id_same_post (s : list post) p p' :
  NoDup (ids s) → p ∈ s → p' ∈ s → id p' = id p → p' = p.
Proof.
  intros Hnd Hp Hp' Hid.
  destruct (find_unique _ _ Hnd Hp) as (k & _ & Hk).
  destruct (find_unique _ _ Hnd Hp') as (k' & _ & Hk').
  rewrite Hid in Hk'. congruence.
Qed.

(** Every post in the store after a request was there before with the
    same id and createdAt, or is the post just created. *)
Lemma handle_origin e req s p' :
  p' ∈ (handle e req s).2 →
  (∃ p, p ∈ s ∧ id p = id p' ∧ createdAt p = createdAt p')
  ∨ draw e (handle e req s).1 = [id p'].
Proof.
  unfold handle. repeat case_match; simpl; intros Hp'; eauto.
  - apply elem_of_app in Hp' as [Hp'| ->%list_elem_of_singleton]; eauto.
  - match goal with H : list_find _ _ = Some _ |- _ =>
      apply list_find_Some in H as (Hk & _ & _) end.
    apply list_elem_of_lookup in Hp' as [j Hj]. left.
    destruct (decide (j = n)) as [->|Hne].
    + rewrite list_lookup_insert_eq in Hj by by eapply lookup_lt_Some.
      injection Hj as <-. simpl. eexists. split; [|done].
      by eapply list_elem_of_lookup_2.
    + rewrite list_lookup_insert_ne in Hj by done.
      exists p'. split; [|done]. by eapply list_elem_of_lookup_2.
  - left. exists p'. split; [|done]. by eapply list_elem_of_delete_inv.
Qed.

(** X14: under a generator that does not repeat, every stored post can be
    fetched: GET /api/posts/{id} with its id is answered 200 with that
    very post. *)
Theorem stored_post_fetchable t e b p :
  rng_fresh t → p ∈ run t posts →
  handle e (mkRequest "GET" ("/api/posts/" +:+ id p) b) (run t posts)
  = (json 200 (PPost p), run t posts).
Proof.
  intros Ht Hp.
  destruct (reachable_store_ok t Ht) as [Hok _].
  pose proof (stored_id_valid _ _ Hok Hp) as Hid.
  destruct (find_unique _ _ (proj1 Hok) Hp) as (k & _ & Hfind).
  rewrite handle_get; [|done|by apply match_post_path_id].
  simpl. by rewrite (path_id_post_path _ Hid), Hfind.
Qed.

Lemma stored_post_fetchable_witness :
  let p := mkPost Sample.uuid1 (VString "Hi") (VString "World")
             (VString "Anonymous") "2026-01-01T00:00:00.000Z" None in
  handle Sample.env2 (mkRequest "GET" ("/api/posts/" +:+ id p) Throws)
    (run Sample.trace1 posts)
  = (json 200 (PPost p), run Sample.trace1 posts).
Proof.
  apply (stored_post_fetchable Sample.trace1 Sample.env2 Throws).
  - exact rng_fresh_trace1.
  - apply list_elem_of_In. vm_compute. right. right. left. reflexivity.
Defined.

(** X15: under a generator that does not repeat, after any sequence of
    requests from the seed posts no two stored posts share an id, every
    id is a non-empty run of letters, digits, underscores and hyphens,
    and every id is "1", "2" or one the generator returned. *)
Theorem ids_unique t :
  rng_fresh t →
  NoDup (ids (run t posts))
  ∧ Forall (λ i, is_id i = true) (ids (run t posts))
  ∧ ∀ i, i ∈ ids (run t posts) → i = "1" ∨ i = "2" ∨ i ∈ draws t posts.
Proof.
  intros Ht. destruct (reachable_store_ok t Ht) as [[Hnd Hid] Hin].
  repeat split; [done..|]. intros i Hi.
  destruct (Hin i Hi) as [Hseed|Hdrawn]; [|auto].
  apply list_elem_of_In in Hseed. simpl in Hseed.
  destruct Hseed as [<-|[<-|[]]]; auto.
Qed.

Lemma ids_unique_witness :
  NoDup (ids (run Sample.trace1 posts))
  ∧ Forall (λ i, is_id i = true) (ids (run Sample.trace1 posts))
  ∧ ∀ i, i ∈ ids (run Sample.trace1 posts) →
         i = "1" ∨ i = "2" ∨ i ∈ draws Sample.trace1 posts.
Proof. apply (ids_unique Sample.trace1). exact rng_fresh_trace1. Defined.

(** X16: under a generator that does not repeat, the createdAt of a post
    never changes: whatever requests are served in between, a stored post
    with the id of an earlier stored post has its createdAt. *)
Theorem created_at_immutable t t' p p' :
  rng_fresh (t ++ t') →
  p ∈ run t posts → p' ∈ run (t ++ t') posts → id p' = id p →
  createdAt p' = createdAt p.
Proof.
  revert p'. induction t' as [|[e req] t' IH] using rev_ind;
    intros p' Hfresh Hp Hp' Hid.
  - rewrite app_nil_r in *.
    destruct (reachable_store_ok t Hfresh) as [[Hnd _] _].
    by rewrite (same_id_same_post _ _ _ Hnd Hp Hp' Hid).
  - rewrite app_assoc in Hfresh, Hp'.
    pose proof (rng_fresh_app_l _ _ Hfresh) as Hfresh'.
    rewrite run_app in Hp'. simpl in Hp'. unfold step in Hp'. simpl in Hp'.
    destruct (handle_origin _ _ _ _ Hp') as [(q & Hq & Hqid & Hqc)|Hdraw].
    + rewrite <- Hqc. apply IH; [done..|congruence].
    + exfalso.
      destruct Hfresh as [Hnd Hu].
      rewrite draws_app in Hnd, Hu. simpl in Hnd, Hu.
      rewrite Hdraw in Hnd, Hu. simpl in Hnd, Hu.
      apply NoDup_app in Hnd as (_ & Hdisj & _).
      apply Forall_app in Hu as [_ Hu]. rewrite Forall_singleton in Hu.
      pose proof (rng_fresh_app_l _ _ Hfresh') as Hfresh_t.
      destruct (reachable_store_ok t Hfresh_t) as [_ Hin].
      destruct (Hin (id p)) as [Hseed|Hdrawn].
      * by apply list_elem_of_fmap_2.
      * rewrite <- Hid in Hseed. by apply (is_uuid_not_seed _ Hu).
      * apply (Hdisj (id p')); [|apply list_elem_of_singleton; done].
        rewrite draws_app, Hid. apply elem_of_app. by left.
Qed.

Lemma created_at_immutable_witness :
  let p := mkPost Sample.uuid1 (VString "Hi") (VString "World")
             (VString "Anonymous") "2026-01-01T00:00:00.000Z" None in
  let p' := mkPost Sample.uuid1 (VString "Hi") (VString "World")
              (VString "X") "2026-01-01T00:00:00.000Z"
              (Some "2026-01-02T00:00:00.000Z") in
  createdAt p' = createdAt p.
Proof.
  apply (created_at_immutable Sample.trace1
           [(Sample.env2,
             mkRequest "PUT" ("/api/posts/" +:+ Sample.uuid1)
               (Parsed (VObject {[ "author" := VString "X" ]})))]).
  - split.
    + apply NoDup_singleton.
    + by repeat constructor.
  - apply list_elem_of_In. vm_compute. right. right. left. reflexivity.
  - apply list_elem_of_In. vm_compute. right. right. left. reflexivity.
  - reflexivity.
Defined.

End Identity.

(** ** main.js *)
Section MainRoutes.

(** X17: main.js looks at the path alone: two requests with the same
    path get the same response, whatever their methods and bodies, so an
    OPTIONS request is answered like a GET. *)
Theorem main_ignores_method e r1 r2 :
  path r1 = path r2 → Main.handle e r1 = Main.handle e r2.
Proof. intros Hp. unfold Main.handle. by rewrite Hp. Qed.

Lemma main_ignores_method_witness :
  Main.handle Sample.main_env (mkRequest "OPTIONS" "/data" Throws)
  = Main.handle Sample.main_env (mkRequest "GET" "/data" (Parsed VNull)).
Proof.
  apply (main_ignores_method Sample.main_env
           (mkRequest "OPTIONS" "/data" Throws)
           (mkRequest "GET" "/data" (Parsed VNull))).
  reflexivity.
Defined.

(** X18: main.js answers 404 exactly when the path is none of "/",
    "/time" and "/data"; the 404 is the plain text "Not Found", whose only
    header is the content-type text/plain;charset=UTF-8 that a string
    body gets by default, and every other answer has status 200. *)
Theorem main_not_found_iff e req :
  (status (Main.handle e req) = 404
   ↔ path req ≠ "/" ∧ path req ≠ "/time" ∧ path req ≠ "/data")
  ∧ (status (Main.handle e req) = 404 →
     Main.handle e req
     = mkResponse 404 [("content-type", "text/plain;charset=UTF-8")]
         (TextBody "Not Found"))
  ∧ (status (Main.handle e req) ≠ 404 → status (Main.handle e req) = 200).
Proof.
  unfold Main.handle. repeat case_bool_decide; simpl;
    (split; [split|split]); try done; try by intros (? & ? & ?).
Qed.

(** X19: the /data route of main.js labels the environment "production"
    exactly when DENO_DEPLOYMENT_ID is set to a non-empty string, and
    "development" otherwise (unset, or set to the empty string). *)
Theorem main_environment_label e req :
  path req = "/data" →
  ∃ label,
    Main.handle e req
    = ok [("content-type", "application/json")]
        (JsonBody (PData "This is JSON data from Deno Deploy" (Main.jsonNow e) label))
    ∧ (label = "production"
       ↔ ∃ d, Main.deploymentId e = Some d ∧ d ≠ "")
    ∧ (label = "production" ∨ label = "development").
Proof.
  intros Hp. unfold Main.handle. rewrite Hp. simpl.
  exists (Main.environment e). split; [done|].
  unfold Main.environment. destruct (Main.deploymentId e) as [d|].
  - case_bool_decide as Hd.
    + subst d. split; [split; [done|]|by right].
      intros (d' & [= <-] & Hd'). done.
    + split; [split; [eauto|done]|by left].
  - split; [split; [done|]|by right]. by intros (d & [=] & _).
Qed.

Lemma main_environment_label_witness :
  ∃ label,
    Main.handle (Main.mkEnv "now" "2026-01-01T00:00:00.000Z" (Some ""))
      (mkRequest "GET" "/data" Throws)
    = ok [("content-type", "application/json")]
        (JsonBody (PData "This is JSON data from Deno Deploy"
                     "2026-01-01T00:00:00.000Z" label))
    ∧ label = "development".
Proof.
  destruct (main_environment_label
              (Main.mkEnv "now" "2026-01-01T00:00:00.000Z" (Some ""))
              (mkRequest "GET" "/data" Throws)) as (label & Hr & Hiff & Hor).
  - reflexivity.
  - exists label. split; [exact Hr|].
    destruct Hor as [Hprod|Hdev]; [|exact Hdev].
    apply Hiff in Hprod. destruct Hprod as (d & Hd & Hne).
    simpl in Hd. injection Hd as <-. by destruct Hne.
Defined.

End MainRoutes.
